(** * UACA2DP: a verification model of firmware/src/uaca2dp.cpp

    The USB-audio to Bluetooth-A2DP relay keeps three globals: the ring
    buffer [audio_ringbuf], the mute flag [uac_mute_flag] and the volume
    [uac_volume_level].  Each callback of the source is modelled as a
    function on the record [state] of these globals, which also records
    whether a failed [configASSERT] has aborted the program.  Bytes are [Z]
    values in 0..255 (uint8_t); the 16-bit samples of the volume loop are
    read little-endian, as on the ESP32. *)

From Stdlib Require Import ZArith List Lia Bool.
Import ListNotations.
Open Scope Z_scope.

(** ** Configuration constants *)

Definition AUDIO_SAMPLE_RATE : Z := 48000.
Definition AUDIO_CHANNELS : Z := 2.
Definition AUDIO_BITS_PER_SAMPLE : Z := 16.
Definition RINGBUF_SIZE : nat := 8 * 1024.

Definition ESP_OK : Z := 0.

(** ** ESP-IDF ring buffers

    [audio_ringbuf] is a FreeRTOS ring buffer of ESP-IDF
    (components/esp_ringbuf, a library, not part of this repository).  Two
    of its types are modelled:
    - RINGBUF_TYPE_ALLOWSPLIT, the type [app_main] creates: a queue of
      items, each stored behind an 8-byte [ItemHeader_t] and padded to a
      multiple of 4 bytes, an item that does not fit before the end of the
      storage being split in two;
    - RINGBUF_TYPE_BYTEBUF, a plain byte queue, the only type
      [xRingbufferReceiveUpTo] accepts.
    RINGBUF_TYPE_NOSPLIT is not modelled. *)

(** A failed [configASSERT] calls abort() (ESP-IDF's default,
    CONFIG_FREERTOS_ASSERT_FAIL_ABORT): the program stops there. *)
Inductive assert_result (A : Type) : Type :=
  | Ok (a : A)
  | Abort.
Arguments Ok {A} a.
Arguments Abort {A}.

Inductive RingbufferType_t :=
  | RINGBUF_TYPE_ALLOWSPLIT
  | RINGBUF_TYPE_BYTEBUF.

Definition rbHEADER_SIZE : nat := 8.   (* sizeof(ItemHeader_t) on the ESP32 *)
Definition rbALIGN_MASK : nat := 3.

(** [( xSize + rbALIGN_MASK ) & ~rbALIGN_MASK] *)
Definition rbALIGN_SIZE (xSize : nat) : nat :=
  Nat.ldiff (xSize + rbALIGN_MASK) rbALIGN_MASK.

(** An ALLOWSPLIT ring buffer ([Ringbuffer_t]): [pucAcquire] and [pucFree]
    are offsets from [pucHead]; [items] are the items sent and not yet
    received, oldest first.  The read pointers are left out: the program
    never completes a read on this buffer (see [xRingbufferReceiveUpTo]). *)
Record splitbuf := mk_splitbuf {
  xSize : nat;
  xMaxItemSize : nat;
  buffer_full : bool;              (* rbBUFFER_FULL_FLAG *)
  pucAcquire : nat;
  pucFree : nat;
  items : list (list Z)
}.

(** A byte buffer holds its storage size, the queued bytes (oldest first)
    and the read offset inside the storage. *)
Inductive ringbuf :=
  | ByteBuf (size : nat) (data : list Z) (rd : nat)
  | SplitBuf (sb : splitbuf).

(** A byte buffer of [RINGBUF_SIZE] bytes holding [data] from offset [rd]. *)
Definition mk_ringbuf (data : list Z) (rd : nat) : ringbuf :=
  ByteBuf RINGBUF_SIZE data rd.

(** [xRingbufferCreate]: the storage of an ALLOWSPLIT buffer is rounded up
    to a multiple of 4, and an item may take two headers when it is split:
    [xMaxItemSize = xSize - 2 * rbHEADER_SIZE]. *)
Definition xRingbufferCreate (xBufferSize : nat) (xBufferType : RingbufferType_t)
  : ringbuf :=
  match xBufferType with
  | RINGBUF_TYPE_ALLOWSPLIT =>
      let xSize := rbALIGN_SIZE xBufferSize in
      SplitBuf (mk_splitbuf xSize (xSize - 2 * rbHEADER_SIZE) false 0 0 [])
  | RINGBUF_TYPE_BYTEBUF => ByteBuf xBufferSize [] 0
  end.

(** [prvCheckItemFitsDefault] for an ALLOWSPLIT buffer. *)
Definition prvCheckItemFitsDefault (sb : splitbuf) (xItemSize : nat) : bool :=
  let xTotalItemSize := (rbALIGN_SIZE xItemSize + rbHEADER_SIZE)%nat in
  if (pucAcquire sb =? pucFree sb)%nat then
    (* buffer either completely empty or completely full *)
    negb (buffer_full sb)
  else if (pucAcquire sb <? pucFree sb)%nat then
    (* free space does not wrap around *)
    (xTotalItemSize <=? pucFree sb - pucAcquire sb)%nat
  else if (xTotalItemSize <=? xSize sb - pucAcquire sb)%nat then true
  else
    (* split wrapping incurs an extra header *)
    (xTotalItemSize + rbHEADER_SIZE
       <=? xSize sb - (pucAcquire sb - pucFree sb))%nat.

(** [prvCopyItemAllowSplit]: when the item and its header do not fit before
    the end of the storage, a first part fills the rest of it and the
    acquire pointer restarts at the head; the acquire pointer wraps when
    less than a header is left, and the buffer is full when it meets the
    free pointer.  (The function's assertions on the acquire pointer hold
    for every buffer this model builds.) *)
Definition prvCopyItemAllowSplit (sb : splitbuf) (pucItem : list Z) : splitbuf :=
  let xAlignedItemSize := rbALIGN_SIZE (length pucItem) in
  let xRemLen := (xSize sb - pucAcquire sb)%nat in
  let split := (xRemLen <? xAlignedItemSize + rbHEADER_SIZE)%nat in
  let acquire := if split then 0%nat else pucAcquire sb in
  let xAlignedItemSize :=
    if split then (xAlignedItemSize - (xRemLen - rbHEADER_SIZE))%nat
    else xAlignedItemSize in
  let acquire := (acquire + rbHEADER_SIZE + xAlignedItemSize)%nat in
  let acquire :=
    if (xSize sb - acquire <? rbHEADER_SIZE)%nat then 0%nat else acquire in
  mk_splitbuf (xSize sb) (xMaxItemSize sb)
    (buffer_full sb || (acquire =? pucFree sb)%nat)
    acquire (pucFree sb) (items sb ++ [pucItem]).

(** [xRingbufferSend] with a zero timeout: the item is inserted whole when
    it fits now, and nothing is inserted otherwise. *)
Definition xRingbufferSend (rb : ringbuf) (buf : list Z) : bool * ringbuf :=
  match rb with
  | ByteBuf size data rd =>
      if (length data + length buf <=? size)%nat
      then (true, ByteBuf size (data ++ buf) rd)
      else (false, rb)
  | SplitBuf sb =>
      if (xMaxItemSize sb <? length buf)%nat then (false, rb)
      else if prvCheckItemFitsDefault sb (length buf)
      then (true, SplitBuf (prvCopyItemAllowSplit sb buf))
      else (false, rb)
  end.

(** [xRingbufferReceiveUpTo] with a zero timeout starts with
    [configASSERT(pxRingbuffer->uxRingbufferFlags & rbBYTE_BUFFER_FLAG)]:
    on any other type the program aborts.  On a byte buffer it returns the
    oldest queued bytes, at most [xMaxSize] of them and never past the end
    of the storage, or NULL when there are none; [vRingbufferReturnItem]
    follows every receive immediately in the source, so the bytes returned
    are freed at once. *)
Definition xRingbufferReceiveUpTo (rb : ringbuf) (xMaxSize : nat)
  : assert_result (option (list Z) * ringbuf) :=
  match rb with
  | ByteBuf size data rd =>
      let n := Nat.min xMaxSize (Nat.min (length data) (size - rd)) in
      if (n =? 0)%nat then Ok (None, rb)
      else Ok (Some (firstn n data), ByteBuf size (skipn n data) ((rd + n) mod size))
  | SplitBuf _ => Abort
  end.

(** ** The globals *)

Record state := State {
  audio_ringbuf : ringbuf;
  uac_mute_flag : bool;
  uac_volume_level : Z;   (* uint32_t *)
  aborted : bool          (* a configASSERT has failed *)
}.

Definition mk_state (rb : ringbuf) (m : bool) (v : Z) : state := State rb m v false.

(** The state once [app_main] has created the ring buffer (the callbacks
    are only registered when [xRingbufferCreate] succeeds). *)
Definition init_state : state :=
  mk_state (xRingbufferCreate RINGBUF_SIZE RINGBUF_TYPE_ALLOWSPLIT) false 100.

Definition set_ringbuf (st : state) (rb : ringbuf) : state :=
  State rb (uac_mute_flag st) (uac_volume_level st) (aborted st).
Definition set_mute_flag (st : state) (m : bool) : state :=
  State (audio_ringbuf st) m (uac_volume_level st) (aborted st).
Definition set_volume_level (st : state) (v : Z) : state :=
  State (audio_ringbuf st) (uac_mute_flag st) v (aborted st).
Definition set_aborted (st : state) : state :=
  State (audio_ringbuf st) (uac_mute_flag st) (uac_volume_level st) true.

(** ** [uac_output_cb]: the USB side delivers [buf] (a NULL buffer is
    [None]); the result is the returned [esp_err_t] ([None] when the call
    aborts and never returns) and the new state. *)

Definition uac_output_cb (st : state) (buf : option (list Z)) : option Z * state :=
  match buf with
  | Some b =>
      if (0 <? length b)%nat then
        let '(ok, rb1) := xRingbufferSend (audio_ringbuf st) b in
        if ok then (Some ESP_OK, set_ringbuf st rb1)
        else
          (* overflow: drop the oldest data, then retry once *)
          match xRingbufferReceiveUpTo rb1 (length b) with
          | Abort => (None, set_aborted st)
          | Ok (_, rb2) =>
              let '(_, rb3) := xRingbufferSend rb2 b in
              (Some ESP_OK, set_ringbuf st rb3)
          end
      else (Some ESP_OK, st)
  | None => (Some ESP_OK, st)
  end.

(** ** [uac_device_set_mute_cb] *)

Definition uac_device_set_mute_cb (st : state) (mute : Z) : state :=
  set_mute_flag st (negb (mute =? 0)).

(** ** [uac_device_set_volume_cb]: the result is the new state and the
    value passed to [a2dp_source.set_volume]. *)

Definition uint8_cast (z : Z) : Z := z mod 256.

Definition uac_device_set_volume_cb (st : state) (volume : Z) : state * Z :=
  let st' := set_volume_level st volume in
  let bt_volume :=
    if volume <=? 100 then uint8_cast ((volume * 127) / 100)
    else if volume <=? 127 then uint8_cast volume
    else let volume := if volume >? 255 then 255 else volume in
         uint8_cast ((volume * 127) / 255) in
  (st', bt_volume).

(** ** [avrc_passthru_cb] *)

Definition avrc_passthru_cb (st : state) (key : Z) (isReleased : bool) : state :=
  if negb isReleased then st
  else if (key =? 68) || (key =? 70)   (* 0x44 PLAY, 0x46 PAUSE *)
  then set_mute_flag st (negb (uac_mute_flag st))
  else st.  (* 0x4B, 0x4C, 0x48, 0x49 and default: printf only *)

(** ** [get_bt_audio_data]

    The receive loop.  [bytes_read] counts the bytes already written to
    [data]; the result is the bytes written from offset [bytes_read] on,
    the final [bytes_read] and the ring buffer, or [Abort].  Every pass
    that does not break reads at least one byte, so [len] passes are
    enough.  The ring buffer keeps its type, so a receive that aborts is
    the loop's first one, before anything is written or dequeued. *)

Fixpoint recv_loop (fuel : nat) (rb : ringbuf) (len bytes_read : nat)
  : assert_result (list Z * nat * ringbuf) :=
  match fuel with
  | O => Ok ([], bytes_read, rb)
  | S fuel' =>
      if (bytes_read <? len)%nat then
        let bytes_to_read := (len - bytes_read)%nat in
        match xRingbufferReceiveUpTo rb bytes_to_read with
        | Abort => Abort
        | Ok (None, rb') =>
            (* underrun: fill the remaining buffer with silence *)
            Ok (repeat 0 (len - bytes_read), len, rb')
        | Ok (Some chunk, rb') =>
            match recv_loop fuel' rb' len (bytes_read + length chunk) with
            | Abort => Abort
            | Ok (rest, br, rb'') => Ok (chunk ++ rest, br, rb'')
            end
        end
      else Ok ([], bytes_read, rb)
  end.

(** [samples[i]] read through a [uint16_t *], little-endian. *)
Definition uint16_le (b0 b1 : Z) : Z := b0 + 256 * b1.

Definition clip16 (sample : Z) : Z :=
  let sample := if sample >? 32767 then 32767 else sample in
  if sample <? -32768 then -32768 else sample.

(** The volume loop over the first [sample_count] samples:
    [sample = (sample * (int)uac_volume_level) / 100] (C division truncates:
    [Z.quot]), clipped, cast to [int16_t] and stored back as [uint16_t]. *)
Fixpoint scale_samples (sample_count : nat) (vol : Z) (data : list Z) : list Z :=
  match sample_count, data with
  | S k, b0 :: b1 :: rest =>
      let sample := uint16_le b0 b1 in
      let sample := Z.quot (sample * vol) 100 in
      let sample := clip16 sample in
      let stored := sample mod 65536 in
      (stored mod 256) :: (stored / 256) :: scale_samples k vol rest
  | _, _ => data
  end.

(** The result is the returned [int32_t] ([None] when the call aborts and
    never returns), the bytes written to [data[0..len)] and the new
    state. *)
Definition get_bt_audio_data (st : state) (len : Z) : option Z * list Z * state :=
  if len <=? 0 then (Some 0, [], st)
  else if uac_mute_flag st || (uac_volume_level st =? 0) then
    (Some len, repeat 0 (Z.to_nat len), st)
  else
    let n := Z.to_nat len in
    match recv_loop n (audio_ringbuf st) n 0 with
    | Abort => (None, [], set_aborted st)
    | Ok (data, bytes_read, rb') =>
        let vol := uac_volume_level st in
        let data :=
          if (vol <? 100) && (vol >? 0) && (0 <? bytes_read)%nat
          then scale_samples (bytes_read / 2) vol data
          else data in
        (Some (Z.of_nat bytes_read), data, set_ringbuf st rb')
    end.

Definition pull_result (r : option Z * list Z * state) : list Z :=
  let '(_, data, _) := r in data.
Definition pull_ret (r : option Z * list Z * state) : option Z :=
  let '(ret, _, _) := r in ret.
Definition pull_state (r : option Z * list Z * state) : state :=
  let '(_, _, st) := r in st.

Example ex_pull_underrun :
  pull_result (get_bt_audio_data
    (mk_state (mk_ringbuf [1;2;3] 0) false 100) 6) = [1;2;3;0;0;0].
Proof. reflexivity. Qed.

Example ex_scale_half :
  pull_result (get_bt_audio_data
    (mk_state (mk_ringbuf [255;127; 255;255] 0) false 50) 4) = [255;63; 255;127].
Proof. vm_compute. reflexivity. Qed.

(** ** Runs: the callbacks the two transports invoke, in sequence *)

Inductive event :=
  | Deliver (buf : list Z)            (* uac_output_cb *)
  | Pull (len : Z)                    (* get_bt_audio_data *)
  | SetMute (mute : Z)                (* uac_device_set_mute_cb *)
  | SetVolume (volume : Z)            (* uac_device_set_volume_cb *)
  | RemoteKey (key : Z) (isReleased : bool).  (* avrc_passthru_cb *)

(** One callback; once the program has aborted, no callback runs.  A pull
    that returns yields the block handed to Bluetooth. *)
Definition exec (st : state) (e : event) : state * option (list Z) :=
  if aborted st then (st, None) else
  match e with
  | Deliver b => (snd (uac_output_cb st (Some b)), None)
  | Pull len =>
      let r := get_bt_audio_data st len in
      (pull_state r,
       match pull_ret r with Some _ => Some (pull_result r) | None => None end)
  | SetMute m => (uac_device_set_mute_cb st m, None)
  | SetVolume v => (fst (uac_device_set_volume_cb st v), None)
  | RemoteKey k rel => (avrc_passthru_cb st k rel, None)
  end.

(** The final state and the blocks pulled, in order. *)
Fixpoint run (st : state) (evs : list event) : state * list (list Z) :=
  match evs with
  | [] => (st, [])
  | e :: evs' =>
      let '(st1, o) := exec st e in
      let '(st2, outs) := run st1 evs' in
      (st2, match o with Some d => d :: outs | None => outs end)
  end.

(** The bytes handed to [uac_output_cb], in order. *)
Fixpoint delivered (evs : list event) : list Z :=
  match evs with
  | [] => []
  | Deliver b :: evs' => b ++ delivered evs'
  | _ :: evs' => delivered evs'
  end.

(** The non-empty writes handed to [uac_output_cb], in order. *)
Fixpoint delivered_items (evs : list event) : list (list Z) :=
  match evs with
  | [] => []
  | Deliver b :: evs' =>
      if (0 <? length b)%nat then b :: delivered_items evs' else delivered_items evs'
  | _ :: evs' => delivered_items evs'
  end.

Definition is_data_event (e : event) : bool :=
  match e with Deliver _ | Pull _ => true | _ => false end.

(** Two writes from [app_main]'s state: the second no longer fits. *)
Definition overflow_events : list event :=
  [Deliver (repeat 0 (8 * 1000)); Deliver (repeat 1 300)].

(** The [i]-th 16-bit sample of a block, as the volume loop reads it
    ([samples[i]] through a [uint16_t *]). *)
Fixpoint sample_at (d : list Z) (i : nat) : Z :=
  match d, i with
  | b0 :: b1 :: _, O => uint16_le b0 b1
  | _ :: _ :: rest, S i => sample_at rest i
  | _, _ => 0
  end.

(** Integer value of a little-endian 16-bit two's complement sample. *)
Definition int16_le (b0 b1 : Z) : Z :=
  let u := uint16_le b0 b1 in if u >=? 32768 then u - 65536 else u.

(** The scaling rule as the spec states it, on a signed sample [s]. *)
Definition spec_scaled_sample (s vol : Z) : Z := clip16 (Z.quot (s * vol) 100).

(** The control state after a remote key event, as the spec lists it. *)
Definition avrc_play_or_pause (key : Z) : Prop := key = 68 \/ key = 70.

(** The ALLOWSPLIT buffer of the states the program reaches: nothing is
    ever freed, so the free pointer stays at the head, and the items'
    bytes fit in the part of the storage the acquire pointer has passed. *)
Definition split_ok (rb : ringbuf) : Prop :=
  match rb with
  | ByteBuf _ _ _ => False
  | SplitBuf sb =>
      xSize sb = RINGBUF_SIZE /\
      xMaxItemSize sb = (RINGBUF_SIZE - 2 * rbHEADER_SIZE)%nat /\
      pucFree sb = 0%nat /\
      (pucAcquire sb < xSize sb)%nat /\
      (buffer_full sb = true -> pucAcquire sb = 0%nat) /\
      (length (concat (items sb))
         <= if buffer_full sb then xSize sb else pucAcquire sb)%nat
  end.

Definition rb_items (rb : ringbuf) : list (list Z) :=
  match rb with
  | ByteBuf _ _ _ => []
  | SplitBuf sb => items sb
  end.

(** ** Lemmas on the ring buffer *)

Lemma rbALIGN_SIZE_RINGBUF_SIZE : rbALIGN_SIZE RINGBUF_SIZE = RINGBUF_SIZE.
Proof. vm_compute. reflexivity. Qed.

Lemma RINGBUF_SIZE_eq : RINGBUF_SIZE = (8 * 1024)%nat.
Proof. reflexivity. Qed.

#[global] Opaque RINGBUF_SIZE.

Lemma rbALIGN_SIZE_bounds x : (x <= rbALIGN_SIZE x <= x + 3)%nat.
Proof.
  unfold rbALIGN_SIZE, rbALIGN_MASK.
  change (Nat.ldiff (x + 3) 3) with (Nat.ldiff (x + 3) (Nat.ones 2)).
  rewrite Nat.ldiff_ones_r, Nat.shiftl_mul_pow2, Nat.shiftr_div_pow2.
  change (2 ^ 2)%nat with 4%nat.
  pose proof (Nat.div_mod_eq (x + 3) 4).
  pose proof (Nat.mod_upper_bound (x + 3) 4 ltac:(lia)).
  lia.
Qed.

Lemma init_ring :
  audio_ringbuf init_state =
  SplitBuf (mk_splitbuf RINGBUF_SIZE (RINGBUF_SIZE - 2 * rbHEADER_SIZE) false 0 0 []).
Proof.
  unfold init_state, mk_state, xRingbufferCreate. cbn [audio_ringbuf].
  rewrite rbALIGN_SIZE_RINGBUF_SIZE. reflexivity.
Qed.

Lemma init_split : split_ok (audio_ringbuf init_state).
Proof.
  rewrite init_ring. pose proof RINGBUF_SIZE_eq.
  cbn. repeat split; try lia; try discriminate.
Qed.

Lemma split_ok_inv rb : split_ok rb -> exists sb, rb = SplitBuf sb.
Proof. destruct rb as [|sb]; [intros []|]. intros _. exists sb. reflexivity. Qed.

(** An item that fits before the end of the storage is appended whole. *)
Lemma copy_split sb b :
  split_ok (SplitBuf sb) -> (length b <= xMaxItemSize sb)%nat ->
  buffer_full sb = false ->
  (rbALIGN_SIZE (length b) + rbHEADER_SIZE <= xSize sb - pucAcquire sb)%nat ->
  split_ok (SplitBuf (prvCopyItemAllowSplit sb b)) /\
  items (prvCopyItemAllowSplit sb b) = items sb ++ [b].
Proof.
  intros (Hs & Hm & Hf & Ha & Hfull & Hp) Hb Hnf Hfit.
  pose proof RINGBUF_SIZE_eq as HR.
  pose proof (rbALIGN_SIZE_bounds (length b)) as Hal.
  rewrite Hnf in Hp.
  unfold prvCopyItemAllowSplit. cbv zeta.
  replace (xSize sb - pucAcquire sb <? rbALIGN_SIZE (length b) + rbHEADER_SIZE)%nat
    with false by (symmetry; apply Nat.ltb_ge; lia).
  rewrite Hnf, Hf. cbn -[rbALIGN_SIZE Nat.ltb Nat.eqb].
  unfold rbHEADER_SIZE in *.
  split; [|reflexivity].
  rewrite concat_app, length_app. cbn [concat]. rewrite app_nil_r.
  destruct (Nat.ltb_spec (xSize sb - (pucAcquire sb + 8 + rbALIGN_SIZE (length b))) 8)
    as [Hw|Hw]; cbn [Nat.eqb orb].
  - repeat split; auto; lia.
  - destruct (Nat.eqb_spec (pucAcquire sb + 8 + rbALIGN_SIZE (length b)) 0); [lia|].
    repeat split; auto; try lia; discriminate.
Qed.

Lemma send_split rb b ok rb' :
  split_ok rb -> xRingbufferSend rb b = (ok, rb') ->
  split_ok rb' /\
  (ok = true -> rb_items rb' = rb_items rb ++ [b]) /\
  (ok = false -> rb' = rb).
Proof.
  destruct rb as [size data rd | sb]; [intros []|].
  intros Hok S. pose proof Hok as (Hs & Hm & Hf & Ha & Hfull & Hp).
  pose proof RINGBUF_SIZE_eq as HR.
  pose proof (rbALIGN_SIZE_bounds (length b)) as Hal.
  unfold xRingbufferSend in S.
  destruct (Nat.ltb_spec (xMaxItemSize sb) (length b)) as [Hbig|Hsmall].
  { injection S as <- <-. split; [exact Hok|]. split; [discriminate | auto]. }
  unfold prvCheckItemFitsDefault in S. rewrite Hf in S.
  destruct (Nat.eqb_spec (pucAcquire sb) 0) as [H0|H0].
  - destruct (buffer_full sb) eqn:Efull; cbn [negb] in S.
    + injection S as <- <-. split; [exact Hok|]. split; [discriminate | auto].
    + injection S as <- <-.
      destruct (copy_split sb b Hok Hsmall Efull) as [Hok' Hi].
      { unfold rbHEADER_SIZE in *. lia. }
      split; [exact Hok'|]. split; [intros _; exact Hi | discriminate].
  - replace (pucAcquire sb <? 0)%nat with false in S
      by (symmetry; apply Nat.ltb_ge; lia).
    assert (Hnf : buffer_full sb = false)
      by (destruct (buffer_full sb); auto; specialize (Hfull eq_refl); lia).
    destruct (Nat.leb_spec (rbALIGN_SIZE (length b) + rbHEADER_SIZE)
                (xSize sb - pucAcquire sb)) as [Hfit|Hfit].
    + injection S as <- <-.
      destruct (copy_split sb b Hok Hsmall Hnf Hfit) as [Hok' Hi].
      split; [exact Hok'|]. split; [intros _; exact Hi | discriminate].
    + replace (rbALIGN_SIZE (length b) + rbHEADER_SIZE + rbHEADER_SIZE
                 <=? xSize sb - (pucAcquire sb - 0))%nat with false in S
        by (symmetry; apply Nat.leb_gt; lia).
      injection S as <- <-. split; [exact Hok|]. split; [discriminate | auto].
Qed.

(** [uac_output_cb] on the program's ring buffer: a write that is not
    inserted at once aborts the program at the receive of line 32. *)
Lemma output_split st b :
  split_ok (audio_ringbuf st) -> (0 < length b)%nat ->
  uac_output_cb st (Some b) =
    let '(ok, rb1) := xRingbufferSend (audio_ringbuf st) b in
    if ok then (Some ESP_OK, set_ringbuf st rb1) else (None, set_aborted st).
Proof.
  intros Hok Hb. unfold uac_output_cb.
  replace (0 <? length b)%nat with true by (symmetry; apply Nat.ltb_lt; exact Hb).
  destruct (xRingbufferSend (audio_ringbuf st) b) as [ok rb1] eqn:S.
  destruct ok; [reflexivity|].
  destruct (send_split _ _ _ _ Hok S) as (_ & _ & Hrb).
  rewrite (Hrb eq_refl).
  destruct (split_ok_inv _ Hok) as [sb ->]. reflexivity.
Qed.

(** [get_bt_audio_data] on the program's ring buffer: a pull that reaches
    the receive loop aborts the program at the receive of line 89. *)
Lemma pull_split st len :
  split_ok (audio_ringbuf st) ->
  get_bt_audio_data st len =
    if len <=? 0 then (Some 0, [], st)
    else if uac_mute_flag st || (uac_volume_level st =? 0)
    then (Some len, repeat 0 (Z.to_nat len), st)
    else (None, [], set_aborted st).
Proof.
  intro Hok. destruct (split_ok_inv _ Hok) as [sb E].
  unfold get_bt_audio_data.
  destruct (Z.leb_spec len 0); [reflexivity|].
  destruct (uac_mute_flag st || (uac_volume_level st =? 0)); [reflexivity|].
  rewrite E. destruct (Z.to_nat len) as [|k] eqn:N; [lia|].
  reflexivity.
Qed.

Lemma output_cb_controls st o :
  uac_mute_flag (snd (uac_output_cb st o)) = uac_mute_flag st /\
  uac_volume_level (snd (uac_output_cb st o)) = uac_volume_level st.
Proof.
  unfold uac_output_cb. destruct o as [b|]; [|auto].
  destruct (0 <? length b)%nat; [|auto].
  destruct (xRingbufferSend (audio_ringbuf st) b) as [ok rb1].
  destruct ok; [simpl; auto|].
  destruct (xRingbufferReceiveUpTo rb1 (length b)) as [[o rb2]|]; [|simpl; auto].
  destruct (xRingbufferSend rb2 b). simpl. auto.
Qed.

Lemma pull_controls st len :
  uac_mute_flag (pull_state (get_bt_audio_data st len)) = uac_mute_flag st /\
  uac_volume_level (pull_state (get_bt_audio_data st len)) = uac_volume_level st.
Proof.
  unfold get_bt_audio_data, pull_state.
  destruct (len <=? 0); [auto|].
  destruct (_ || _); [auto|].
  destruct (recv_loop _ _ _ _) as [[[d br] rb']|]; simpl; auto.
Qed.

(** ** Lemmas on runs *)

Lemma run_cons_fst st e evs :
  fst (run st (e :: evs)) = fst (run (fst (exec st e)) evs).
Proof.
  simpl. destruct (exec st e) as [st1 o]. simpl.
  destruct (run st1 evs) as [st2 outs]. reflexivity.
Qed.

Lemma run_cons_snd st e evs :
  snd (run st (e :: evs)) =
  match snd (exec st e) with
  | Some d => d :: snd (run (fst (exec st e)) evs)
  | None => snd (run (fst (exec st e)) evs)
  end.
Proof.
  simpl. destruct (exec st e) as [st1 o]. simpl.
  destruct (run st1 evs) as [st2 outs]. reflexivity.
Qed.

Lemma run_aborted st evs : aborted st = true -> run st evs = (st, []).
Proof.
  intro H. induction evs as [|e evs IH]; [reflexivity|].
  simpl. unfold exec at 1. rewrite H. rewrite IH. reflexivity.
Qed.

Lemma delivered_items_cons e evs :
  delivered_items (e :: evs) = delivered_items [e] ++ delivered_items evs.
Proof.
  destruct e as [b| | | |]; simpl; auto.
  destruct (0 <? length b)%nat; reflexivity.
Qed.

Lemma delivered_items_concat evs : concat (delivered_items evs) = delivered evs.
Proof.
  induction evs as [|e evs IH]; [reflexivity|].
  destruct e as [b| | | |]; simpl; auto.
  destruct (Nat.ltb_spec 0 (length b)); simpl; rewrite IH; auto.
  destruct b; [reflexivity | simpl in *; lia].
Qed.

(** One callback on the program's ring buffer. *)
Lemma exec_split st e :
  split_ok (audio_ringbuf st) ->
  split_ok (audio_ringbuf (fst (exec st e))) /\
  (aborted (fst (exec st e)) = false ->
     aborted st = false /\
     rb_items (audio_ringbuf (fst (exec st e)))
       = rb_items (audio_ringbuf st) ++ delivered_items [e]) /\
  (forall d, snd (exec st e) = Some d -> Forall (fun x => x = 0) d).
Proof.
  intro Hok. unfold exec.
  destruct (aborted st) eqn:Ab.
  { cbn [fst snd]. split; [exact Hok|]. split; [intro; congruence|].
    intros d H; discriminate. }
  destruct e as [b|len|m|v|k rel]; cbn [fst snd].
  - (* uac_output_cb *)
    split; [|split; [|intros d H; discriminate]].
    + destruct (Nat.ltb_spec 0 (length b)) as [Hb|Hb].
      * rewrite (output_split st b Hok Hb).
        destruct (xRingbufferSend (audio_ringbuf st) b) as [ok rb1] eqn:S.
        destruct (send_split _ _ _ _ Hok S) as (Hok1 & _ & Hrb).
        destruct ok; [exact Hok1|]. exact Hok.
      * unfold uac_output_cb.
        replace (0 <? length b)%nat with false by (symmetry; apply Nat.ltb_ge; lia).
        exact Hok.
    + intros Hna. split; [reflexivity|]. cbn [delivered_items].
      destruct (Nat.ltb_spec 0 (length b)) as [Hb|Hb].
      * rewrite (output_split st b Hok Hb) in Hna |- *.
        destruct (xRingbufferSend (audio_ringbuf st) b) as [ok rb1] eqn:S.
        destruct (send_split _ _ _ _ Hok S) as (_ & Hi & _).
        destruct ok.
        -- exact (Hi eq_refl).
        -- discriminate Hna.
      * unfold uac_output_cb.
        replace (0 <? length b)%nat with false by (symmetry; apply Nat.ltb_ge; lia).
        rewrite app_nil_r. reflexivity.
  - (* get_bt_audio_data *)
    rewrite (pull_split st len Hok).
    destruct (len <=? 0).
    + split; [exact Hok|]. split.
      * intros _. split; [reflexivity|]. rewrite app_nil_r. reflexivity.
      * intros d H. injection H as <-. constructor.
    + destruct (uac_mute_flag st || (uac_volume_level st =? 0)).
      * split; [exact Hok|]. split.
        -- intros _. split; [reflexivity|]. rewrite app_nil_r. reflexivity.
        -- intros d H. injection H as <-. apply Forall_forall.
           intros x Hx. apply repeat_spec in Hx. exact Hx.
      * split; [exact Hok|]. split.
        -- intro H. discriminate H.
        -- intros d H. discriminate H.
  - split; [exact Hok|]. split; [|intros d H; discriminate].
    intros _. split; [reflexivity|]. rewrite app_nil_r. reflexivity.
  - split; [exact Hok|]. split; [|intros d H; discriminate].
    intros _. split; [reflexivity|]. rewrite app_nil_r. reflexivity.
  - assert (E : audio_ringbuf (avrc_passthru_cb st k rel) = audio_ringbuf st).
    { unfold avrc_passthru_cb. destruct (negb rel); auto. destruct (_ || _); auto. }
    rewrite E. split; [exact Hok|]. split; [|intros d H; discriminate].
    intros _. split; [reflexivity|]. rewrite app_nil_r. reflexivity.
Qed.

Lemma run_split st evs :
  split_ok (audio_ringbuf st) ->
  split_ok (audio_ringbuf (fst (run st evs))) /\
  (aborted (fst (run st evs)) = false ->
     aborted st = false /\
     rb_items (audio_ringbuf (fst (run st evs)))
       = rb_items (audio_ringbuf st) ++ delivered_items evs) /\
  Forall (Forall (fun x => x = 0)) (snd (run st evs)).
Proof.
  revert st. induction evs as [|e evs IH]; intros st Hok.
  - simpl. split; [exact Hok|]. split; [|constructor].
    intro H. split; [exact H|]. rewrite app_nil_r. reflexivity.
  - destruct (exec_split st e Hok) as (Hok1 & Hab1 & Hz1).
    destruct (IH (fst (exec st e)) Hok1) as (Hok2 & Hab2 & Hz2).
    rewrite run_cons_fst, run_cons_snd. split; [exact Hok2|]. split.
    + intro H. destruct (Hab2 H) as [H1 Hi2].
      destruct (Hab1 H1) as [H0 Hi1].
      split; [exact H0|].
      rewrite Hi2, Hi1, (delivered_items_cons e evs), app_assoc. reflexivity.
    + destruct (snd (exec st e)) as [d|] eqn:O; [|exact Hz2].
      constructor; [apply Hz1; reflexivity | exact Hz2].
Qed.

Lemma reach_split evs : split_ok (audio_ringbuf (fst (run init_state evs))).
Proof. apply (run_split init_state evs init_split). Qed.

(** Only deliveries and pulls, unmuted and at a non-zero volume: no pull
    hands a non-empty block to Bluetooth, and a pull of a positive length
    aborts the program. *)
Lemma data_run_split st evs :
  split_ok (audio_ringbuf st) -> uac_mute_flag st = false ->
  uac_volume_level st <> 0 -> forallb is_data_event evs = true ->
  Forall (fun d => d = []) (snd (run st evs)) /\
  (forall len, In (Pull len) evs -> 0 < len -> aborted (fst (run st evs)) = true).
Proof.
  revert st. induction evs as [|e evs IH]; intros st Hok Hm Hv Hd.
  - split; [constructor|]. intros len [].
  - simpl in Hd. apply andb_true_iff in Hd as [He Hd].
    destruct (exec_split st e Hok) as (Hok1 & _ & _).
    assert (Hc : uac_mute_flag (fst (exec st e)) = false /\
                 uac_volume_level (fst (exec st e)) <> 0).
    { unfold exec. destruct (aborted st); [auto|].
      destruct e as [b|len| | |]; try discriminate He; cbn [fst].
      - destruct (output_cb_controls st (Some b)) as [-> ->]. auto.
      - destruct (pull_controls st len) as [-> ->]. auto. }
    destruct Hc as [Hm1 Hv1].
    destruct (IH (fst (exec st e)) Hok1 Hm1 Hv1 Hd) as [Hz Hab].
    rewrite run_cons_fst, run_cons_snd. split.
    + destruct (snd (exec st e)) as [d|] eqn:O; [|exact Hz].
      constructor; [|exact Hz].
      unfold exec in O. destruct (aborted st); [discriminate|].
      destruct e as [b|len| | |]; try discriminate He; cbn [snd] in O;
        [discriminate|].
      rewrite (pull_split st len Hok) in O. rewrite Hm in O.
      destruct (len <=? 0); [injection O as <-; reflexivity|].
      apply Z.eqb_neq in Hv. rewrite Hv in O. discriminate.
    + intros len [-> | Hin] Hlen; [|exact (Hab len Hin Hlen)].
      assert (Ha : aborted (fst (exec st (Pull len))) = true).
      { unfold exec. destruct (aborted st) eqn:Ab; [exact Ab|].
        cbn [fst]. rewrite (pull_split st len Hok), Hm.
        destruct (Z.leb_spec len 0); [lia|].
        apply Z.eqb_neq in Hv. rewrite Hv. reflexivity. }
      rewrite (run_aborted _ evs Ha). exact Ha.
Qed.

(** ** Lemmas on the volume loop and the reported volume *)

Lemma scale_samples_length k vol d :
  length (scale_samples k vol d) = length d.
Proof.
  revert d. induction k as [|k IH]; intros [|b0 [|b1 rest]]; simpl; auto.
Qed.

(** One sample through the volume loop, for a sample read as unsigned. *)
Lemma scale_one_sample b0 b1 vol :
  0 <= b0 < 256 -> 0 <= b1 < 256 -> 0 < vol < 100 ->
  let u := uint16_le b0 b1 in
  let stored := clip16 (Z.quot (u * vol) 100) mod 65536 in
  uint16_le (stored mod 256) (stored / 256) = Z.min (u * vol / 100) 32767 /\
  0 <= stored mod 256 < 256 /\ 0 <= stored / 256 < 256.
Proof.
  intros H0 H1 Hv. cbv zeta.
  assert (Hu : 0 <= uint16_le b0 b1 <= 65535) by (unfold uint16_le; lia).
  generalize dependent (uint16_le b0 b1). intros u Hu.
  assert (Hq : Z.quot (u * vol) 100 = u * vol / 100)
    by (apply Z.quot_div_nonneg; lia).
  assert (Hd : 0 <= u * vol / 100) by (apply Z.div_pos; lia).
  assert (Hc : clip16 (Z.quot (u * vol) 100) = Z.min (u * vol / 100) 32767).
  { rewrite Hq. unfold clip16.
    destruct (Z.gtb_spec (u * vol / 100) 32767).
    - rewrite Z.min_r by lia. reflexivity.
    - destruct (Z.ltb_spec (u * vol / 100) (-32768)); [lia|].
      rewrite Z.min_l by lia. reflexivity. }
  assert (Hs : clip16 (Z.quot (u * vol) 100) mod 65536
               = Z.min (u * vol / 100) 32767).
  { rewrite Hc. apply Z.mod_small. lia. }
  rewrite Hs. unfold uint16_le.
  split; [|split].
  - pose proof (Z.div_mod (Z.min (u * vol / 100) 32767) 256 ltac:(lia)). lia.
  - apply Z.mod_pos_bound. lia.
  - split; [apply Z.div_pos | apply Z.div_lt_upper_bound]; lia.
Qed.

Lemma scale_samples_bytes k vol d :
  0 < vol < 100 -> Forall (fun b => 0 <= b < 256) d ->
  Forall (fun b => 0 <= b < 256) (scale_samples k vol d).
Proof.
  revert d. induction k as [|k IH]; intros d Hv Hd; [exact Hd|].
  destruct d as [|b0 [|b1 rest]]; auto.
  apply Forall_cons_iff in Hd as [H0 Hd]. apply Forall_cons_iff in Hd as [H1 Hd].
  destruct (scale_one_sample b0 b1 vol H0 H1 Hv) as (_ & Hlo & Hhi).
  cbn [scale_samples]. constructor; [exact Hlo|]. constructor; [exact Hhi|].
  apply IH; auto.
Qed.

Lemma scale_samples_tail k vol d :
  (2 * k <= length d)%nat ->
  skipn (2 * k) (scale_samples k vol d) = skipn (2 * k) d.
Proof.
  revert d. induction k as [|k IH]; intros d Hk; [reflexivity|].
  destruct d as [|b0 [|b1 rest]]; simpl in Hk; try lia.
  replace (2 * S k)%nat with (S (S (2 * k))) by lia.
  simpl. apply IH. lia.
Qed.

(** The value [uac_device_set_volume_cb] passes to [a2dp_source.set_volume]:
    the [uint8_t] casts never truncate. *)
Lemma bt_volume_value st volume :
  0 <= volume ->
  snd (uac_device_set_volume_cb st volume) =
    (if volume <=? 100 then volume * 127 / 100
     else if volume <=? 127 then volume
     else Z.min volume 255 * 127 / 255).
Proof.
  intro Hv. unfold uac_device_set_volume_cb, uint8_cast. simpl.
  assert (Hdiv : forall a d, 0 < d -> 0 <= a <= 127 * d -> 0 <= a / d <= 127).
  { intros a d Hd Ha.
    split; [apply Z.div_pos | apply Z.div_le_upper_bound]; lia. }
  destruct (Z.leb_spec volume 100).
  - pose proof (Hdiv (volume * 127) 100 ltac:(lia) ltac:(lia)).
    apply Z.mod_small. lia.
  - destruct (Z.leb_spec volume 127); [apply Z.mod_small; lia|].
    destruct (Z.gtb_spec volume 255).
    + rewrite Z.min_r by lia.
      pose proof (Hdiv (255 * 127) 255 ltac:(lia) ltac:(lia)).
      apply Z.mod_small. lia.
    + rewrite Z.min_l by lia.
      pose proof (Hdiv (volume * 127) 255 ltac:(lia) ltac:(lia)).
      apply Z.mod_small. lia.
Qed.

(** ** Claims *)

(** C1 (code_bug).  The spec scales each signed 16-bit sample [s] to
    [clamp(s * v / 100)], so a negative sample stays negative or zero.  The
    volume loop reads samples through a [uint16_t *]: the sample -1 (bytes
    FF FF) is scaled as 65535 at volume 50 and comes out as 32767 (bytes
    FF 7F), where the spec's rule gives 0. *)
Theorem C1_negative_sample_scaled_as_unsigned :
  let out := pull_result (get_bt_audio_data
               (mk_state (mk_ringbuf [255; 255] 0) false 50) 2) in
  out = [255; 127] /\
  int16_le 255 255 = -1 /\
  int16_le (nth 0 out 0) (nth 1 out 0) = 32767 /\
  spec_scaled_sample (-1) 50 = 0.
Proof. vm_compute. repeat split; reflexivity. Qed.

(** C2 (counterexample).  [set_volume(110)] stores 110, not a value
    rescaled to the 0..100 range. *)
Lemma C2_set_volume_110_stored_raw :
  ~ (uac_volume_level (fst (uac_device_set_volume_cb init_state 110)) <= 100).
Proof. vm_compute. intro H. apply H. reflexivity. Qed.

(** C2 (amended).  [uac_device_set_volume_cb] stores the raw host value
    unchanged as the volume level and leaves the other globals alone; the
    range detection only computes the value reported to the Bluetooth
    sink: [raw * 127 / 100] for raw <= 100, [raw] for 101..127 and
    [min(raw, 255) * 127 / 255] above, always within 0..127. *)
Theorem C2_set_volume_stores_raw_reports_0_127 st volume :
  0 <= volume ->
  let '(st', bt_volume) := uac_device_set_volume_cb st volume in
  uac_volume_level st' = volume /\
  uac_mute_flag st' = uac_mute_flag st /\
  audio_ringbuf st' = audio_ringbuf st /\
  bt_volume = (if volume <=? 100 then volume * 127 / 100
               else if volume <=? 127 then volume
               else Z.min volume 255 * 127 / 255) /\
  0 <= bt_volume <= 127.
Proof.
  intro Hv. unfold uac_device_set_volume_cb, uint8_cast. simpl.
  assert (Hdiv : forall a d, 0 < d -> 0 <= a <= 127 * d -> 0 <= a / d <= 127).
  { intros a d Hd Ha.
    split; [apply Z.div_pos | apply Z.div_le_upper_bound]; lia. }
  destruct (Z.leb_spec volume 100).
  - pose proof (Hdiv (volume * 127) 100 ltac:(lia) ltac:(lia)).
    rewrite Z.mod_small by lia. repeat split; lia.
  - destruct (Z.leb_spec volume 127).
    + rewrite Z.mod_small by lia. repeat split; lia.
    + destruct (Z.gtb_spec volume 255).
      * rewrite Z.min_r by lia.
        pose proof (Hdiv (255 * 127) 255 ltac:(lia) ltac:(lia)).
        rewrite Z.mod_small by lia. repeat split; lia.
      * rewrite Z.min_l by lia.
        pose proof (Hdiv (volume * 127) 255 ltac:(lia) ltac:(lia)).
        rewrite Z.mod_small by lia. repeat split; lia.
Qed.

Lemma C2_set_volume_stores_raw_reports_0_127_witness :
  0 <= 200 /\
  let '(st', bt_volume) := uac_device_set_volume_cb init_state 200 in
  uac_volume_level st' = 200 /\
  uac_mute_flag st' = uac_mute_flag init_state /\
  audio_ringbuf st' = audio_ringbuf init_state /\
  bt_volume = (if 200 <=? 100 then 200 * 127 / 100
               else if 200 <=? 127 then 200
               else Z.min 200 255 * 127 / 255) /\
  0 <= bt_volume <= 127.
Proof.
  split; [lia|]. apply (C2_set_volume_stores_raw_reports_0_127 init_state 200).
  lia.
Defined.

(** C3 (code_bug).  The spec's pull always fills [len] bytes, padding a
    short read with silence.  [app_main] creates [audio_ringbuf] as
    RINGBUF_TYPE_ALLOWSPLIT, and [xRingbufferReceiveUpTo] asserts that its
    buffer is a byte buffer: in every state the program reaches, an
    unmuted pull of [len > 0] bytes at a non-zero volume aborts the program
    at line 89, returning nothing and writing nothing. *)
Theorem C3_unmuted_pull_aborts evs len :
  let st := fst (run init_state evs) in
  aborted st = false -> uac_mute_flag st = false ->
  uac_volume_level st <> 0 -> 0 < len ->
  get_bt_audio_data st len = (None, [], set_aborted st).
Proof.
  intros st _ Hm Hv Hlen.
  rewrite (pull_split st len (reach_split evs)).
  destruct (Z.leb_spec len 0); [lia|]. rewrite Hm.
  apply Z.eqb_neq in Hv. rewrite Hv. reflexivity.
Qed.

Lemma C3_unmuted_pull_aborts_witness :
  aborted (fst (run init_state [Deliver [1; 2; 3]])) = false /\
  uac_mute_flag (fst (run init_state [Deliver [1; 2; 3]])) = false /\
  uac_volume_level (fst (run init_state [Deliver [1; 2; 3]])) <> 0 /\ 0 < 6 /\
  get_bt_audio_data (fst (run init_state [Deliver [1; 2; 3]])) 6
    = (None, [], set_aborted (fst (run init_state [Deliver [1; 2; 3]]))).
Proof.
  split; [vm_compute; reflexivity|]. split; [vm_compute; reflexivity|].
  split; [vm_compute; discriminate|]. split; [lia|].
  apply (C3_unmuted_pull_aborts [Deliver [1; 2; 3]] 6);
    [vm_compute; reflexivity | vm_compute; reflexivity |
     vm_compute; discriminate | lia].
Defined.

(** C4 (code_bug).  The spec's producer, on a failed enqueue, discards
    the oldest data, retries once and reports success.  On the program's
    ALLOWSPLIT ring buffer the discarding receive at line 32 fails its
    assertion: in every state the program reaches, a non-empty write that
    [xRingbufferSend] rejects aborts the program, nothing is discarded and
    no status is returned. *)
Theorem C4_failed_enqueue_aborts evs b :
  let st := fst (run init_state evs) in
  aborted st = false -> (0 < length b)%nat ->
  fst (xRingbufferSend (audio_ringbuf st) b) = false ->
  uac_output_cb st (Some b) = (None, set_aborted st).
Proof.
  intros st _ Hb Hs.
  rewrite (output_split st b (reach_split evs) Hb).
  destruct (xRingbufferSend (audio_ringbuf st) b) as [ok rb1].
  cbn [fst] in Hs. rewrite Hs. reflexivity.
Qed.

Lemma C4_failed_enqueue_aborts_witness :
  aborted (fst (run init_state [Deliver (repeat 0 (8 * 1000))])) = false /\
  (0 < length (repeat 1 300))%nat /\
  fst (xRingbufferSend
         (audio_ringbuf (fst (run init_state [Deliver (repeat 0 (8 * 1000))])))
         (repeat 1 300)) = false /\
  uac_output_cb (fst (run init_state [Deliver (repeat 0 (8 * 1000))]))
                (Some (repeat 1 300))
    = (None, set_aborted (fst (run init_state [Deliver (repeat 0 (8 * 1000))]))).
Proof.
  split; [vm_compute; reflexivity|].
  split; [rewrite repeat_length; lia|].
  split; [vm_compute; reflexivity|].
  apply (C4_failed_enqueue_aborts [Deliver (repeat 0 (8 * 1000))] (repeat 1 300));
    [vm_compute; reflexivity | rewrite repeat_length; lia |
     vm_compute; reflexivity].
Defined.

(** C5.  Muted, or at volume 0, a pull of [len > 0] bytes yields [len]
    zero bytes whatever the ring buffer holds (which it leaves untouched). *)
Theorem C5_pull_muted_is_silence st len :
  uac_mute_flag st = true \/ uac_volume_level st = 0 ->
  0 < len ->
  pull_result (get_bt_audio_data st len) = repeat 0 (Z.to_nat len) /\
  pull_state (get_bt_audio_data st len) = st.
Proof.
  intros Hm Hlen. unfold get_bt_audio_data, pull_result, pull_state.
  destruct (Z.leb_spec len 0); [lia|].
  destruct Hm as [-> | ->]; simpl; [|rewrite orb_true_r]; auto.
Qed.

Lemma C5_pull_muted_is_silence_witness :
  (uac_mute_flag (mk_state (mk_ringbuf [9; 9] 0) true 100) = true \/
   uac_volume_level (mk_state (mk_ringbuf [9; 9] 0) true 100) = 0) /\ 0 < 2 /\
  pull_result (get_bt_audio_data (mk_state (mk_ringbuf [9; 9] 0) true 100) 2)
    = repeat 0 (Z.to_nat 2) /\
  pull_state (get_bt_audio_data (mk_state (mk_ringbuf [9; 9] 0) true 100) 2)
    = mk_state (mk_ringbuf [9; 9] 0) true 100.
Proof.
  split; [left; reflexivity|]. split; [lia|].
  apply C5_pull_muted_is_silence; [left; reflexivity | lia].
Defined.

(** C6 (code_bug).  The spec's channel hands the consumer the enqueued
    bytes in order.  From [app_main]'s state, over any run of deliveries
    and pulls, no pulled block holds a single byte (a pull of [len <= 0]
    yields an empty block), and the first pull of a positive length aborts
    the program at line 89. *)
Theorem C6_no_enqueued_byte_reaches_consumer evs :
  forallb is_data_event evs = true ->
  Forall (fun d => d = []) (snd (run init_state evs)) /\
  (forall len, In (Pull len) evs -> 0 < len ->
     aborted (fst (run init_state evs)) = true).
Proof.
  intro Hd. apply data_run_split; [exact init_split | reflexivity | discriminate | exact Hd].
Qed.

Lemma C6_no_enqueued_byte_reaches_consumer_witness :
  forallb is_data_event [Deliver [1; 2; 3]; Pull 3] = true /\
  Forall (fun d => d = []) (snd (run init_state [Deliver [1; 2; 3]; Pull 3])) /\
  (forall len, In (Pull len) [Deliver [1; 2; 3]; Pull 3] -> 0 < len ->
     aborted (fst (run init_state [Deliver [1; 2; 3]; Pull 3])) = true).
Proof.
  split; [reflexivity|].
  apply C6_no_enqueued_byte_reaches_consumer. reflexivity.
Defined.

(** C7.  A press event changes nothing; the release of PLAY (0x44) or
    PAUSE (0x46) flips the mute flag and nothing else; the release of any
    other key (next, previous, seek, unknown) changes nothing. *)
Theorem C7_avrc_passthru_transitions st key :
  avrc_passthru_cb st key false = st /\
  (avrc_play_or_pause key ->
   avrc_passthru_cb st key true = set_mute_flag st (negb (uac_mute_flag st))) /\
  (~ avrc_play_or_pause key -> avrc_passthru_cb st key true = st).
Proof.
  unfold avrc_passthru_cb, avrc_play_or_pause. simpl.
  split; [reflexivity|]. split.
  - intros [-> | ->]; reflexivity.
  - intro Hk.
    destruct (Z.eqb_spec key 68); [exfalso; auto|].
    destruct (Z.eqb_spec key 70); [exfalso; auto|]. reflexivity.
Qed.

(** C8 (code_bug).  In every state the program reaches, the ring buffer is
    the 8192-byte ALLOWSPLIT buffer of [app_main] and its items hold at
    most 8192 bytes; but once the bytes delivered exceed 8192 the program
    has aborted (the discarding receive at line 32 fails its assertion):
    no oldest data is ever dropped to make room. *)
Theorem C8_overflow_aborts_instead_of_dropping evs :
  let st := fst (run init_state evs) in
  (exists sb, audio_ringbuf st = SplitBuf sb /\ xSize sb = RINGBUF_SIZE /\
              (length (concat (items sb)) <= xSize sb)%nat) /\
  ((RINGBUF_SIZE < length (delivered evs))%nat -> aborted st = true).
Proof.
  intro st.
  destruct (run_split init_state evs init_split) as (Hok & Hab & _).
  fold st in Hok, Hab.
  destruct (split_ok_inv _ Hok) as [sb E].
  pose proof Hok as Hok'. rewrite E in Hok'.
  destruct Hok' as (Hs & _ & _ & Ha & _ & Hp).
  split.
  - exists sb. split; [exact E|]. split; [exact Hs|].
    destruct (buffer_full sb); lia.
  - intro Hd. destruct (aborted st) eqn:Ab; [reflexivity|].
    destruct (Hab eq_refl) as [_ Hi].
    rewrite init_ring, E in Hi. cbn [rb_items items app] in Hi.
    rewrite Hi, delivered_items_concat in Hp.
    destruct (buffer_full sb); lia.
Qed.

Lemma C8_overflow_aborts_instead_of_dropping_witness :
  (RINGBUF_SIZE < length (delivered overflow_events))%nat /\
  aborted (fst (run init_state overflow_events)) = true.
Proof.
  assert (H : (RINGBUF_SIZE < length (delivered overflow_events))%nat).
  { unfold overflow_events. cbn [delivered].
    rewrite app_nil_r, length_app, !repeat_length, RINGBUF_SIZE_eq. lia. }
  split; [exact H|].
  apply (C8_overflow_aborts_instead_of_dropping overflow_events). exact H.
Defined.

(** C9 (code_bug).  The spec's pull at volume 100 returns the dequeued
    bytes unchanged.  In every state the program reaches, unmuted at
    volume 100, a pull of [len > 0] bytes returns nothing and writes
    nothing: it aborts the program at line 89 and leaves the queued items
    where they are. *)
Theorem C9_unity_pull_returns_nothing evs len :
  let st := fst (run init_state evs) in
  aborted st = false -> uac_mute_flag st = false ->
  uac_volume_level st = 100 -> 0 < len ->
  pull_ret (get_bt_audio_data st len) = None /\
  pull_result (get_bt_audio_data st len) = [] /\
  aborted (pull_state (get_bt_audio_data st len)) = true /\
  audio_ringbuf (pull_state (get_bt_audio_data st len)) = audio_ringbuf st.
Proof.
  intros st _ Hm Hv Hlen.
  rewrite (pull_split st len (reach_split evs)).
  destruct (Z.leb_spec len 0); [lia|]. rewrite Hm, Hv. cbn.
  repeat split.
Qed.

Lemma C9_unity_pull_returns_nothing_witness :
  aborted (fst (run init_state [Deliver [1; 2; 3; 4]])) = false /\
  uac_mute_flag (fst (run init_state [Deliver [1; 2; 3; 4]])) = false /\
  uac_volume_level (fst (run init_state [Deliver [1; 2; 3; 4]])) = 100 /\ 0 < 4 /\
  pull_ret (get_bt_audio_data (fst (run init_state [Deliver [1; 2; 3; 4]])) 4) = None /\
  pull_result (get_bt_audio_data (fst (run init_state [Deliver [1; 2; 3; 4]])) 4) = [] /\
  aborted (pull_state (get_bt_audio_data
             (fst (run init_state [Deliver [1; 2; 3; 4]])) 4)) = true /\
  audio_ringbuf (pull_state (get_bt_audio_data
                   (fst (run init_state [Deliver [1; 2; 3; 4]])) 4))
    = audio_ringbuf (fst (run init_state [Deliver [1; 2; 3; 4]])).
Proof.
  split; [vm_compute; reflexivity|]. split; [vm_compute; reflexivity|].
  split; [vm_compute; reflexivity|]. split; [lia|].
  apply (C9_unity_pull_returns_nothing [Deliver [1; 2; 3; 4]] 4);
    [vm_compute; reflexivity | vm_compute; reflexivity |
     vm_compute; reflexivity | lia].
Defined.

(** C10 (code_bug).  The spec's pull at a stored volume above 100 returns
    the dequeued bytes unscaled.  In every state the program reaches, once
    the host has set a volume [v > 100] (stored raw), an unmuted pull of
    [len > 0] bytes returns nothing and writes nothing: it aborts the
    program at line 89, before the volume test of line 105. *)
Theorem C10_pull_above_100_returns_nothing evs v len :
  let st := fst (uac_device_set_volume_cb (fst (run init_state evs)) v) in
  aborted st = false -> uac_mute_flag st = false -> 100 < v -> 0 < len ->
  pull_ret (get_bt_audio_data st len) = None /\
  pull_result (get_bt_audio_data st len) = [] /\
  aborted (pull_state (get_bt_audio_data st len)) = true.
Proof.
  intros st _ Hm Hv Hlen.
  assert (Hok : split_ok (audio_ringbuf st)) by exact (reach_split evs).
  rewrite (pull_split st len Hok).
  destruct (Z.leb_spec len 0); [lia|]. rewrite Hm.
  replace (uac_volume_level st =? 0) with false
    by (symmetry; apply Z.eqb_neq; cbn; lia).
  cbn. repeat split.
Qed.

Lemma C10_pull_above_100_returns_nothing_witness :
  aborted (fst (uac_device_set_volume_cb
                 (fst (run init_state [Deliver [1; 2; 3; 4]])) 110)) = false /\
  uac_mute_flag (fst (uac_device_set_volume_cb
                        (fst (run init_state [Deliver [1; 2; 3; 4]])) 110)) = false /\
  100 < 110 /\ 0 < 4 /\
  pull_ret (get_bt_audio_data (fst (uac_device_set_volume_cb
              (fst (run init_state [Deliver [1; 2; 3; 4]])) 110)) 4) = None /\
  pull_result (get_bt_audio_data (fst (uac_device_set_volume_cb
                 (fst (run init_state [Deliver [1; 2; 3; 4]])) 110)) 4) = [] /\
  aborted (pull_state (get_bt_audio_data (fst (uac_device_set_volume_cb
             (fst (run init_state [Deliver [1; 2; 3; 4]])) 110)) 4)) = true.
Proof.
  split; [vm_compute; reflexivity|]. split; [vm_compute; reflexivity|].
  split; [lia|]. split; [lia|].
  apply (C10_pull_above_100_returns_nothing [Deliver [1; 2; 3; 4]] 110 4);
    [vm_compute; reflexivity | vm_compute; reflexivity | lia | lia].
Defined.

(** ** Further properties of the code *)

(** X1.  In every state the program reaches without aborting, the ring
    buffer holds exactly the non-empty writes delivered so far, oldest
    first, one item each: no read of it ever completes. *)
Theorem X1_ring_holds_every_write evs :
  let st := fst (run init_state evs) in
  aborted st = false ->
  exists sb, audio_ringbuf st = SplitBuf sb /\ items sb = delivered_items evs.
Proof.
  intros st Hab.
  destruct (run_split init_state evs init_split) as (Hok & Habi & _).
  fold st in Hok, Habi.
  destruct (split_ok_inv _ Hok) as [sb E].
  exists sb. split; [exact E|].
  destruct (Habi Hab) as [_ Hi]. rewrite init_ring, E in Hi. exact Hi.
Qed.

Lemma X1_ring_holds_every_write_witness :
  aborted (fst (run init_state [Deliver [1; 2]; SetMute 1; Pull 4; Deliver [];
                               Deliver [3]])) = false /\
  exists sb, audio_ringbuf (fst (run init_state [Deliver [1; 2]; SetMute 1; Pull 4;
                                                 Deliver []; Deliver [3]]))
               = SplitBuf sb /\
             items sb = delivered_items [Deliver [1; 2]; SetMute 1; Pull 4;
                                         Deliver []; Deliver [3]].
Proof.
  split; [vm_compute; reflexivity|].
  apply (X1_ring_holds_every_write
           [Deliver [1; 2]; SetMute 1; Pull 4; Deliver []; Deliver [3]]).
  vm_compute. reflexivity.
Defined.

(** X2.  From [app_main]'s state, a first write of 1 to 8176 bytes
    ([xMaxItemSize] = 8192 - 2 * 8) is stored as one item and reported
    [ESP_OK]. *)
Theorem X2_first_write_stored b :
  (0 < length b)%nat -> (length b <= RINGBUF_SIZE - 2 * rbHEADER_SIZE)%nat ->
  fst (uac_output_cb init_state (Some b)) = Some ESP_OK /\
  rb_items (audio_ringbuf (snd (uac_output_cb init_state (Some b)))) = [b].
Proof.
  intros Hb Hmax.
  rewrite (output_split init_state b init_split Hb).
  pose proof init_split as Hok. pose proof RINGBUF_SIZE_eq as HR.
  rewrite init_ring in Hok |- *.
  unfold xRingbufferSend. cbn [xMaxItemSize].
  replace (RINGBUF_SIZE - 2 * rbHEADER_SIZE <? length b)%nat with false
    by (symmetry; apply Nat.ltb_ge; exact Hmax).
  unfold prvCheckItemFitsDefault. cbn [pucAcquire pucFree buffer_full Nat.eqb negb].
  destruct (copy_split (mk_splitbuf RINGBUF_SIZE (RINGBUF_SIZE - 2 * rbHEADER_SIZE)
                          false 0 0 []) b Hok Hmax eq_refl) as [_ Hi].
  { pose proof (rbALIGN_SIZE_bounds (length b)). cbn. unfold rbHEADER_SIZE in *. lia. }
  split; [reflexivity|]. cbn [snd audio_ringbuf set_ringbuf rb_items].
  rewrite Hi. reflexivity.
Qed.

Lemma X2_first_write_stored_witness :
  (0 < length (repeat 7 (8 * 1022)))%nat /\
  (length (repeat 7 (8 * 1022)) <= RINGBUF_SIZE - 2 * rbHEADER_SIZE)%nat /\
  fst (uac_output_cb init_state (Some (repeat 7 (8 * 1022)))) = Some ESP_OK /\
  rb_items (audio_ringbuf (snd (uac_output_cb init_state (Some (repeat 7 (8 * 1022))))))
    = [repeat 7 (8 * 1022)].
Proof.
  assert (H1 : (0 < length (repeat 7 (8 * 1022)))%nat)
    by (rewrite repeat_length; lia).
  assert (H2 : (length (repeat 7 (8 * 1022)) <= RINGBUF_SIZE - 2 * rbHEADER_SIZE)%nat)
    by (rewrite repeat_length, RINGBUF_SIZE_eq; unfold rbHEADER_SIZE; lia).
  split; [exact H1|]. split; [exact H2|].
  apply X2_first_write_stored; [exact H1 | exact H2].
Defined.

(** X3.  At a volume [vol] strictly between 0 and 100, the volume loop
    replaces each of its samples [u], read as an unsigned 16-bit value, by
    [min(u * vol / 100, 32767)]: the result is never above 32767 (never a
    negative [int16_t]) and never above [u], and the output stays a block of
    bytes. *)
Theorem X3_volume_loop_sample_value k vol d i :
  0 < vol < 100 -> Forall (fun b => 0 <= b < 256) d ->
  (2 * k <= length d)%nat -> (i < k)%nat ->
  sample_at (scale_samples k vol d) i = Z.min (sample_at d i * vol / 100) 32767 /\
  0 <= sample_at (scale_samples k vol d) i <= sample_at d i /\
  Forall (fun b => 0 <= b < 256) (scale_samples k vol d).
Proof.
  revert d i. induction k as [|k IH]; intros d i Hv Hd Hk Hi; [lia|].
  destruct d as [|b0 [|b1 rest]]; simpl in Hk; try lia.
  apply Forall_cons_iff in Hd as [H0 Hd]. apply Forall_cons_iff in Hd as [H1 Hd].
  destruct (scale_one_sample b0 b1 vol H0 H1 Hv) as (Hs & Hlo & Hhi).
  pose proof (scale_samples_bytes k vol rest Hv Hd) as Hrest.
  assert (Hu : 0 <= uint16_le b0 b1) by (unfold uint16_le; lia).
  assert (Hle : uint16_le b0 b1 * vol / 100 <= uint16_le b0 b1)
    by (apply Z.div_le_upper_bound; nia).
  assert (Hpos : 0 <= uint16_le b0 b1 * vol / 100) by (apply Z.div_pos; lia).
  destruct i as [|i].
  - cbn [scale_samples sample_at]. rewrite Hs.
    split; [reflexivity|]. split; [lia|].
    constructor; [exact Hlo|]. constructor; [exact Hhi | exact Hrest].
  - cbn [scale_samples sample_at].
    destruct (IH rest i Hv Hd ltac:(lia) ltac:(lia)) as (Ha & Hb & _).
    split; [exact Ha|]. split; [exact Hb|].
    constructor; [exact Hlo|]. constructor; [exact Hhi | exact Hrest].
Qed.

Lemma X3_volume_loop_sample_value_witness :
  0 < 50 < 100 /\ Forall (fun b => 0 <= b < 256) [255; 255; 16; 0] /\
  (2 * 2 <= length [255; 255; 16; 0])%nat /\ (1 < 2)%nat /\
  sample_at (scale_samples 2 50 [255; 255; 16; 0]) 1
    = Z.min (sample_at [255; 255; 16; 0] 1 * 50 / 100) 32767 /\
  0 <= sample_at (scale_samples 2 50 [255; 255; 16; 0]) 1
    <= sample_at [255; 255; 16; 0] 1 /\
  Forall (fun b => 0 <= b < 256) (scale_samples 2 50 [255; 255; 16; 0]).
Proof.
  split; [lia|]. split; [repeat constructor; lia|].
  split; [simpl; lia|]. split; [lia|].
  apply X3_volume_loop_sample_value; [lia | repeat constructor; lia | simpl; lia | lia].
Defined.

(** X4.  The volume loop scales [bytes_read / 2] whole samples: a trailing
    odd byte of the block is left as it came from the ring buffer, and the
    block keeps its length. *)
Theorem X4_volume_loop_keeps_odd_byte vol d :
  skipn (2 * (length d / 2)) (scale_samples (length d / 2) vol d)
    = skipn (2 * (length d / 2)) d /\
  length (scale_samples (length d / 2) vol d) = length d.
Proof.
  split; [|apply scale_samples_length].
  apply scale_samples_tail. apply Nat.Div0.mul_div_le.
Qed.

(** X5.  In every state the program reaches, [get_bt_audio_data] leaves
    the mute flag, the volume and the ring buffer as they are: it either
    does not touch the ring buffer or aborts on its first receive. *)
Theorem X5_pull_keeps_controls_and_ring evs len :
  let st := fst (run init_state evs) in
  let st' := pull_state (get_bt_audio_data st len) in
  uac_mute_flag st' = uac_mute_flag st /\
  uac_volume_level st' = uac_volume_level st /\
  audio_ringbuf st' = audio_ringbuf st.
Proof.
  intros st st'. subst st'.
  rewrite (pull_split st len (reach_split evs)).
  destruct (len <=? 0); [auto|].
  destruct (_ || _); cbn; auto.
Qed.

(** X6.  The host's mute and volume callbacks and the remote-key callback
    never touch the ring buffer; the audio callbacks ([uac_output_cb],
    [get_bt_audio_data]) never touch the mute flag or the volume. *)
Theorem X6_control_and_audio_paths_separate st evs :
  (forallb is_data_event evs = true ->
   uac_mute_flag (fst (run st evs)) = uac_mute_flag st /\
   uac_volume_level (fst (run st evs)) = uac_volume_level st) /\
  (forallb (fun e => negb (is_data_event e)) evs = true ->
   audio_ringbuf (fst (run st evs)) = audio_ringbuf st).
Proof.
  revert st. induction evs as [|e evs IH]; intro st; [simpl; auto|].
  rewrite run_cons_fst. simpl forallb.
  destruct (IH (fst (exec st e))) as [IHd IHc].
  split; intro H; apply andb_true_iff in H as [He H].
  - destruct (IHd H) as [-> ->].
    unfold exec. destruct (aborted st); [auto|].
    destruct e as [b|len| | |]; try discriminate He; cbn [fst].
    + apply output_cb_controls.
    + apply pull_controls.
  - rewrite (IHc H). unfold exec. destruct (aborted st); [auto|].
    destruct e as [b|len|m|v|k rel]; try discriminate He; simpl; auto.
    unfold avrc_passthru_cb.
    destruct (negb rel); auto. destruct (_ || _); auto.
Qed.

(** X7.  After the host sets mute with a non-zero value, every pull of
    [len > 0] bytes returns silence and leaves the whole state (ring buffer
    included) as it is; clearing mute again afterwards restores an unmuted
    state exactly. *)
Theorem X7_host_mute_then_unmute st m len :
  m <> 0 -> 0 < len ->
  let st1 := uac_device_set_mute_cb st m in
  pull_result (get_bt_audio_data st1 len) = repeat 0 (Z.to_nat len) /\
  pull_state (get_bt_audio_data st1 len) = st1 /\
  (uac_mute_flag st = false -> uac_device_set_mute_cb st1 0 = st).
Proof.
  intros Hm Hlen st1.
  assert (Hf : uac_mute_flag st1 = true)
    by (subst st1; simpl; apply Z.eqb_neq in Hm; rewrite Hm; reflexivity).
  unfold get_bt_audio_data, pull_result, pull_state.
  destruct (Z.leb_spec len 0); [lia|]. rewrite Hf. simpl.
  split; [reflexivity|]. split; [reflexivity|].
  intro H0. subst st1. destruct st as [rb mf vl ab]. simpl in *. subst mf.
  reflexivity.
Qed.

Lemma X7_host_mute_then_unmute_witness :
  1 <> 0 /\ 0 < 2 /\
  let st1 := uac_device_set_mute_cb (mk_state (mk_ringbuf [5; 6] 0) false 40) 1 in
  pull_result (get_bt_audio_data st1 2) = repeat 0 (Z.to_nat 2) /\
  pull_state (get_bt_audio_data st1 2) = st1 /\
  (uac_mute_flag (mk_state (mk_ringbuf [5; 6] 0) false 40) = false ->
   uac_device_set_mute_cb st1 0 = mk_state (mk_ringbuf [5; 6] 0) false 40).
Proof.
  split; [lia|]. split; [lia|].
  apply X7_host_mute_then_unmute; lia.
Defined.

(** X8.  Two releases of PLAY or PAUSE (0x44, 0x46, in any combination)
    bring the state back to where it was. *)
Theorem X8_play_pause_twice_restores st k1 k2 :
  avrc_play_or_pause k1 -> avrc_play_or_pause k2 ->
  avrc_passthru_cb (avrc_passthru_cb st k1 true) k2 true = st.
Proof.
  unfold avrc_play_or_pause, avrc_passthru_cb.
  intros H1 H2. simpl.
  assert (E : forall k, k = 68 \/ k = 70 -> (k =? 68) || (k =? 70) = true)
    by (intros k [-> | ->]; reflexivity).
  rewrite (E k1 H1). simpl. rewrite (E k2 H2).
  destruct st as [rb mf vl ab]. unfold set_mute_flag. simpl.
  rewrite negb_involutive. reflexivity.
Qed.

Lemma X8_play_pause_twice_restores_witness :
  avrc_play_or_pause 68 /\ avrc_play_or_pause 70 /\
  avrc_passthru_cb (avrc_passthru_cb init_state 68 true) 70 true = init_state.
Proof.
  split; [left; reflexivity|]. split; [right; reflexivity|].
  apply X8_play_pause_twice_restores; [left | right]; reflexivity.
Defined.

(** X9.  The volume reported to the Bluetooth sink is 0 exactly when the
    host sets volume 0: any positive host value reports at least 1. *)
Theorem X9_reported_volume_zero_iff st raw :
  0 <= raw ->
  snd (uac_device_set_volume_cb st raw) = 0 <-> raw = 0.
Proof.
  intro Hv. rewrite (bt_volume_value st raw Hv).
  destruct (Z.leb_spec raw 100) as [Hle|Hgt].
  - split; intro H.
    + destruct (Z.eq_dec raw 0) as [|Hn]; auto.
      assert (1 <= raw * 127 / 100)
        by (apply Z.div_le_lower_bound; lia). lia.
    + subst raw. reflexivity.
  - destruct (Z.leb_spec raw 127) as [Hle'|Hgt']; [lia|].
    split; intro H; [|lia].
    assert (1 <= Z.min raw 255 * 127 / 255)
      by (apply Z.div_le_lower_bound; lia). lia.
Qed.

Lemma X9_reported_volume_zero_iff_witness :
  0 <= 1 /\ (snd (uac_device_set_volume_cb init_state 1) = 0 <-> 1 = 0).
Proof. split; [lia|]. apply X9_reported_volume_zero_iff. lia. Defined.

(** X10.  The reported volume is not monotone in the host value: host 100
    reports the maximum 127, host values 101..126 report themselves (less
    than 127), and every host value of 255 or more reports 127 again. *)
Theorem X10_reported_volume_drops_after_100 st :
  snd (uac_device_set_volume_cb st 100) = 127 /\
  (forall raw, 101 <= raw <= 126 ->
     snd (uac_device_set_volume_cb st raw) = raw /\ raw < 127) /\
  (forall raw, 255 <= raw -> snd (uac_device_set_volume_cb st raw) = 127).
Proof.
  split; [reflexivity|]. split.
  - intros raw Hr. rewrite (bt_volume_value st raw) by lia.
    destruct (Z.leb_spec raw 100); [lia|].
    destruct (Z.leb_spec raw 127); [|lia]. split; [reflexivity | lia].
  - intros raw Hr. rewrite (bt_volume_value st raw) by lia.
    destruct (Z.leb_spec raw 100); [lia|].
    destruct (Z.leb_spec raw 127); [lia|].
    rewrite Z.min_r by lia. reflexivity.
Qed.

(** X11.  In every state the program reaches, a non-empty write longer
    than [xMaxItemSize] = 8176 bytes aborts the program, however empty the
    ring buffer is: [xRingbufferSend] rejects it outright and the receive
    of line 32 fails its assertion. *)
Theorem X11_oversized_write_aborts evs b :
  let st := fst (run init_state evs) in
  (RINGBUF_SIZE - 2 * rbHEADER_SIZE < length b)%nat ->
  uac_output_cb st (Some b) = (None, set_aborted st).
Proof.
  intros st Hb.
  pose proof (reach_split evs) as Hok. fold st in Hok.
  assert (Hb0 : (0 < length b)%nat) by lia.
  rewrite (output_split st b Hok Hb0).
  destruct (split_ok_inv _ Hok) as [sb E].
  pose proof Hok as Hok'. rewrite E in Hok'. destruct Hok' as (_ & Hm & _).
  rewrite E. unfold xRingbufferSend.
  replace (xMaxItemSize sb <? length b)%nat with true
    by (symmetry; apply Nat.ltb_lt; lia).
  reflexivity.
Qed.

Lemma X11_oversized_write_aborts_witness :
  (RINGBUF_SIZE - 2 * rbHEADER_SIZE < length (repeat 1 (8 * 1022 + 1)))%nat /\
  uac_output_cb init_state (Some (repeat 1 (8 * 1022 + 1)))
    = (None, set_aborted init_state).
Proof.
  assert (H : (RINGBUF_SIZE - 2 * rbHEADER_SIZE < length (repeat 1 (8 * 1022 + 1)))%nat)
    by (rewrite repeat_length, RINGBUF_SIZE_eq; unfold rbHEADER_SIZE; lia).
  split; [exact H|].
  apply (X11_oversized_write_aborts [] (repeat 1 (8 * 1022 + 1))). exact H.
Defined.

(** X12.  Every block the program hands to Bluetooth, over any run from
    [app_main]'s state, is silence: only the muted or volume-0 path of
    [get_bt_audio_data] returns a non-empty block. *)
Theorem X12_blocks_to_bluetooth_are_silence evs :
  Forall (Forall (fun x => x = 0)) (snd (run init_state evs)).
Proof. apply (run_split init_state evs init_split). Qed.
